(** * The VBA external scanner (src/vba-parser/src/scanner.c)

    A shallow embedding of the tree-sitter external scanner that recognises
    the VBA line-continuation marker, together with the properties its
    specification states.

    The scanner is written against two interfaces that are not part of the
    repository: the [TSLexer] handle of <tree_sitter/parser.h> and the
    classification function [iswspace] of <wctype.h>.  The lexer handle is
    modelled below (section "The host lexer"); [iswspace] is a parameter of
    the development, instantiated with the "C" locale wherever a concrete
    run is evaluated. *)

From Stdlib Require Import ZArith List Bool Lia.
Import ListNotations.
Local Open Scope Z_scope.

(** ** Wide characters *)

Module WChar.

(** [wint_t] / [int32_t]: a character is its code point. *)
Definition wint_t := Z.

(** The character constant ['_']. *)
Definition underscore : wint_t := 95.

(** [iswspace] in the "C" locale (ISO C 7.4.1.10): space, and the five
    controls form feed, new line, carriage return, horizontal tab and
    vertical tab, which are the code points 9 to 13. *)
Definition iswspace_C (c : wint_t) : bool :=
  (c =? 32) || ((9 <=? c) && (c <=? 13)).

End WChar.
Import WChar.

(** ** Token kinds *)

(** [enum TokenType { LINE_CONTINUATION, };] *)
Inductive TokenType : Set :=
| LINE_CONTINUATION.

(** The integer value of an enumerator, used as array index and as symbol. *)
Definition TokenType_index (t : TokenType) : nat :=
  match t with
  | LINE_CONTINUATION => 0
  end.

(** [TSSymbol] is a 16-bit unsigned integer. *)
Definition TSSymbol := Z.

Definition TokenType_symbol (t : TokenType) : TSSymbol :=
  Z.of_nat (TokenType_index t).

(** [const bool *valid_symbols]: a read-only array indexed by token kind. *)
Definition valid_symbols_t := nat -> bool.

(** ** The host lexer *)

(** A call the scanner makes on the lexer handle: [advance] with the
    character that was the lookahead and the [skip] flag it passed, or the
    assignment of [result_symbol]. *)
Inductive LexerCall : Set :=
| CallAdvance (c : wint_t) (skip : bool)
| CallResult (sym : TSSymbol).

(** Modelled from the spec: the lexer handle [TSLexer] of
    <tree_sitter/parser.h>, which the repository includes but does not
    contain.  The spec gives it a lookahead (the current character), an
    advance operation with a flag, and a settable [result_symbol].  Following
    the tree-sitter ABI the flag of [advance] is [skip]: [true] marks the
    character as whitespace that precedes the token, [false] consumes it as
    part of the token.

    - [input] is the unread text, the cursor standing before its head;
    - [position] counts the characters the cursor has passed;
    - [token_start] is where the token under construction begins: a skipped
      character moves it to the position behind that character;
    - [calls] records, oldest first, the calls made on the handle. *)
Record TSLexer : Set := mkLexer {
  input : list wint_t;
  position : nat;
  token_start : nat;
  result_symbol : TSSymbol;
  calls : list LexerCall
}.

(** [lexer->lookahead]: the character at the cursor, 0 at the end of input. *)
Definition lookahead (l : TSLexer) : wint_t :=
  match input l with
  | [] => 0
  | c :: _ => c
  end.

(** [lexer->advance(lexer, skip)].  At the end of input the host ignores the
    call. *)
Definition advance (l : TSLexer) (skip : bool) : TSLexer :=
  match input l with
  | [] => l
  | c :: rest =>
      {| input := rest;
         position := S (position l);
         token_start := if skip then S (position l) else token_start l;
         result_symbol := result_symbol l;
         calls := calls l ++ [CallAdvance c skip] |}
  end.

(** [lexer->result_symbol = sym]. *)
Definition assign_result_symbol (l : TSLexer) (sym : TSSymbol) : TSLexer :=
  {| input := input l;
     position := position l;
     token_start := token_start l;
     result_symbol := sym;
     calls := calls l ++ [CallResult sym] |}.

(** A lexer standing at the beginning of a text. *)
Definition lexer_on (text : list wint_t) : TSLexer :=
  {| input := text; position := 0; token_start := 0;
     result_symbol := 0; calls := [] |}.

(** ** The world of a call *)

(** Pointers are addresses; [NULL] is address 0. *)
Definition ptr := Z.
Definition NULL : ptr := 0.

(** The memory the pointer arguments of the callbacks point into (scanner
    payload, serialization buffers), as address/byte pairs. *)
Definition Memory := list (ptr * Byte.byte).

Record World : Set := mkWorld {
  memory : Memory;
  lexer : TSLexer
}.

(** ** A state monad with fuel for the callbacks *)

(** A computation runs on a world and yields a value and the world it
    leaves, or [None] when a loop has used up its fuel. *)
Definition Host (A : Type) : Type := World -> option (A * World).

Definition ret {A : Type} (a : A) : Host A :=
  fun w => Some (a, w).

Definition bind {A B : Type} (m : Host A) (k : A -> Host B) : Host B :=
  fun w =>
    match m w with
    | None => None
    | Some (a, w') => k a w'
    end.

Declare Scope host_scope.
Delimit Scope host_scope with host.
Notation "x <- m ;; k" := (bind m (fun x => k))
  (at level 61, m at next level, right associativity) : host_scope.
Notation "m ;; k" := (bind m (fun _ => k))
  (at level 61, right associativity) : host_scope.
Local Open Scope host_scope.

(** Reading and updating the lexer inside the monad. *)
Definition get_lookahead : Host wint_t :=
  fun w => Some (lookahead (lexer w), w).

Definition do_advance (skip : bool) : Host unit :=
  fun w => Some (tt, {| memory := memory w; lexer := advance (lexer w) skip |}).

Definition set_result_symbol (sym : TSSymbol) : Host unit :=
  fun w => Some (tt, {| memory := memory w;
                        lexer := assign_result_symbol (lexer w) sym |}).

(** [while (cond) body]: every evaluation of the condition takes one unit of
    fuel. *)
Fixpoint while_ (fuel : nat) (cond : Host bool) (body : Host unit) : Host unit :=
  match fuel with
  | O => fun _ => None
  | S fuel' =>
      b <- cond ;;
      if (b : bool) then body ;; while_ fuel' cond body else ret tt
  end.

(** ** The scanner *)

(** [void *tree_sitter_vba_external_scanner_create() { return NULL; }] *)
Definition tree_sitter_vba_external_scanner_create : Host ptr :=
  ret NULL.

(** [void tree_sitter_vba_external_scanner_destroy(void *_p) {}] *)
Definition tree_sitter_vba_external_scanner_destroy (_p : ptr) : Host unit :=
  ret tt.

(** [void tree_sitter_vba_external_scanner_reset(void *_p) {}] *)
Definition tree_sitter_vba_external_scanner_reset (_p : ptr) : Host unit :=
  ret tt.

(** [unsigned tree_sitter_vba_external_scanner_serialize(void *_p,
      char *_buffer) { return 0; }] *)
Definition tree_sitter_vba_external_scanner_serialize
    (_p : ptr) (_buffer : ptr) : Host Z :=
  ret 0.

(** [void tree_sitter_vba_external_scanner_deserialize(void *_p,
      const char *_b, unsigned _n) {}] *)
Definition tree_sitter_vba_external_scanner_deserialize
    (_p : ptr) (_b : ptr) (_n : Z) : Host unit :=
  ret tt.

Section Scanner.

(** [iswspace] of <wctype.h>; its result is locale dependent. *)
Variable iswspace : wint_t -> bool.

(** [bool tree_sitter_vba_external_scanner_scan(void *_payload,
      TSLexer *lexer, const bool *valid_symbols)].  The lexer is the one of
  the world the computation runs on; [fuel] bounds the [while] loop. *)
Definition tree_sitter_vba_external_scanner_scan
    (fuel : nat) (_payload : ptr) (valid_symbols : valid_symbols_t)
  : Host bool :=
  if valid_symbols (TokenType_index LINE_CONTINUATION) then
    while_ fuel (c <- get_lookahead ;; ret (iswspace c)) (do_advance true) ;;
    c <- get_lookahead ;;
    if c =? underscore then
      do_advance false ;;
      set_result_symbol (TokenType_symbol LINE_CONTINUATION) ;;
      ret true
    else
      ret false
  else
    ret false.

End Scanner.

(** ** Observations *)

(** What a caller observes of a run that started in [w0]: the value
    returned, how many characters the cursor moved, and the calls made on
    the lexer handle during the run. *)
Record Outcome (A : Type) : Type := mkOutcome {
  returned : A;
  consumed : nat;
  made : list LexerCall
}.
Arguments mkOutcome {A} _ _ _.
Arguments returned {A} _.
Arguments consumed {A} _.
Arguments made {A} _.

Definition outcome {A : Type} (m : Host A) (w0 : World) : option (Outcome A) :=
  match m w0 with
  | None => None
  | Some (a, w1) =>
      Some {| returned := a;
              consumed := (position (lexer w1) - position (lexer w0))%nat;
              made := skipn (length (calls (lexer w0))) (calls (lexer w1)) |}
  end.

(** The calls that assign [result_symbol]. *)
Definition is_result_call (c : LexerCall) : bool :=
  match c with
  | CallResult _ => true
  | CallAdvance _ _ => false
  end.

(** A world whose lexer stands at the beginning of [text]. *)
Definition world_on (text : list wint_t) : World :=
  {| memory := []; lexer := lexer_on text |}.

(** A world in the middle of a parse: some memory in use, the cursor at
    position 7 of its text, an earlier result in the lexer. *)
Definition world_midway (text : list wint_t) : World :=
  {| memory := [(4096, Byte.x2a)];
     lexer := {| input := text; position := 7; token_start := 7;
                 result_symbol := 3; calls := [CallAdvance 120 false] |} |}.

(** The valid-symbols arrays with the line continuation allowed, and with
    nothing allowed. *)
Definition valid_all : valid_symbols_t := fun _ => true.
Definition valid_none : valid_symbols_t := fun _ => false.

(** ** Describing runs *)

(** The longest prefix of [text] made of characters that [p] accepts, and
    what follows it. *)
Fixpoint ws_run (p : wint_t -> bool) (text : list wint_t) : list wint_t :=
  match text with
  | [] => []
  | c :: text' => if p c then c :: ws_run p text' else []
  end.

Fixpoint after_run (p : wint_t -> bool) (text : list wint_t) : list wint_t :=
  match text with
  | [] => []
  | c :: text' => if p c then after_run p text' else text
  end.

(** The lexer after [advance(lexer, true)] has been called once for every
    character of [ws], and the calls this leaves in the record. *)
Definition skipped (l : TSLexer) (ws : list wint_t) : TSLexer :=
  fold_left (fun l' _ => advance l' true) ws l.

Definition skip_calls (ws : list wint_t) : list LexerCall :=
  map (fun c => CallAdvance c true) ws.

(** The lexer a successful match leaves behind. *)
Definition matched (l : TSLexer) (ws : list wint_t) : TSLexer :=
  assign_result_symbol (advance (skipped l ws) false)
    (TokenType_symbol LINE_CONTINUATION).

(** The calls of a successful match behind the skipped whitespace. *)
Definition match_calls : list LexerCall :=
  [CallAdvance underscore false;
   CallResult (TokenType_symbol LINE_CONTINUATION)].

(** The scanner under the "C" locale. *)
Definition scan_C := tree_sitter_vba_external_scanner_scan iswspace_C.

(** ** Sessions of the host *)

(** A call of one of the five lifecycle callbacks, with its arguments. *)
Inductive Lifecycle : Set :=
| LCreate
| LDestroy (p : ptr)
| LReset (p : ptr)
| LSerialize (p buffer : ptr)
| LDeserialize (p b : ptr) (n : Z).

Definition lifecycle_call (c : Lifecycle) : Host unit :=
  match c with
  | LCreate => tree_sitter_vba_external_scanner_create ;; ret tt
  | LDestroy p => tree_sitter_vba_external_scanner_destroy p
  | LReset p => tree_sitter_vba_external_scanner_reset p
  | LSerialize p buffer =>
      tree_sitter_vba_external_scanner_serialize p buffer ;; ret tt
  | LDeserialize p b n => tree_sitter_vba_external_scanner_deserialize p b n
  end.

(** What the host does with the scanner: lifecycle calls and scans. *)
Inductive HostCall : Type :=
| Life (c : Lifecycle)
| Scan (fuel : nat) (payload : ptr) (valid_symbols : valid_symbols_t).

Definition is_scan (c : HostCall) : bool :=
  match c with
  | Scan _ _ _ => true
  | Life _ => false
  end.

(** Runs the calls in order on one world and collects what the scans
    return. *)
Fixpoint session (iswspace : wint_t -> bool) (cs : list HostCall)
  : Host (list bool) :=
  match cs with
  | [] => ret []
  | Life c :: cs' => lifecycle_call c ;; session iswspace cs'
  | Scan fuel payload valid_symbols :: cs' =>
      b <- tree_sitter_vba_external_scanner_scan
             iswspace fuel payload valid_symbols ;;
      bs <- session iswspace cs' ;;
      ret (b :: bs)
  end.

(** * Properties *)

(** ** The monad and the lexer operations *)

Lemma world_eta (w : World) :
  {| memory := memory w; lexer := lexer w |} = w.
Proof. destruct w; reflexivity. Qed.

Lemma lookahead_cons (l : TSLexer) (c : wint_t) (rest : list wint_t) :
  input l = c :: rest -> lookahead l = c.
Proof. unfold lookahead; intros ->; reflexivity. Qed.

Lemma lookahead_hd (l : TSLexer) : lookahead l = hd 0 (input l).
Proof. unfold lookahead; destruct (input l); reflexivity. Qed.

Lemma advance_cons (l : TSLexer) (skip : bool) (c : wint_t) (rest : list wint_t) :
  input l = c :: rest ->
  input (advance l skip) = rest /\
  position (advance l skip) = S (position l) /\
  token_start (advance l skip) = (if skip then S (position l) else token_start l) /\
  result_symbol (advance l skip) = result_symbol l /\
  calls (advance l skip) = calls l ++ [CallAdvance c skip].
Proof. unfold advance; intros ->; simpl; auto. Qed.

(** ** Skipping a run of whitespace *)

Lemma skipped_cons (l : TSLexer) (c : wint_t) (ws : list wint_t) :
  skipped l (c :: ws) = skipped (advance l true) ws.
Proof. reflexivity. Qed.

Lemma skipped_spec (ws rest : list wint_t) :
  forall l : TSLexer,
    input l = ws ++ rest ->
    input (skipped l ws) = rest /\
    position (skipped l ws) = (position l + length ws)%nat /\
    result_symbol (skipped l ws) = result_symbol l /\
    calls (skipped l ws) = calls l ++ skip_calls ws /\
    token_start (skipped l ws) =
      match ws with
      | [] => token_start l
      | _ :: _ => (position l + length ws)%nat
      end.
Proof.
  induction ws as [|c ws IH]; intros l Hin.
  - simpl in *. rewrite app_nil_r, Nat.add_0_r. auto.
  - rewrite skipped_cons.
    destruct (advance_cons l true c (ws ++ rest) Hin)
      as (Hi & Hp & Ht & Hr & Hc).
    destruct (IH _ Hi) as (Ji & Jp & Jr & Jc & Jt).
    rewrite Ji, Jp, Jr, Jc, Jt, Hp, Hr, Hc, Ht.
    simpl length. rewrite <- app_assoc. simpl.
    repeat split; try lia.
    destruct ws; simpl; lia.
Qed.

Lemma run_split (p : wint_t -> bool) (text : list wint_t) :
  text = ws_run p text ++ after_run p text /\
  Forall (fun c => p c = true) (ws_run p text) /\
  (p 0 = false -> p (hd 0 (after_run p text)) = false) /\
  (length (ws_run p text) <= length text)%nat.
Proof.
  induction text as [|c text (IH1 & IH2 & IH3 & IH4)]; simpl.
  - repeat split; auto.
  - destruct (p c) eqn:E; simpl.
    + repeat split; auto; try lia. f_equal; exact IH1.
    + repeat split; auto; lia.
Qed.

Section SkipLoop.

Variable iswspace : wint_t -> bool.

#[local] Abbreviation at_whitespace :=
  (bind get_lookahead (fun c => ret (iswspace c))).
#[local] Abbreviation skip_loop fuel :=
  (while_ fuel at_whitespace (do_advance true)).

Lemma skip_loop_step (fuel : nat) (w : World) :
  skip_loop (S fuel) w =
  if iswspace (lookahead (lexer w))
  then skip_loop fuel {| memory := memory w; lexer := advance (lexer w) true |}
  else Some (tt, w).
Proof.
  simpl while_. unfold bind at 1 2, get_lookahead at 1, ret at 1.
  destruct (iswspace (lookahead (lexer w))); reflexivity.
Qed.

Lemma skip_loop_run (ws rest : list wint_t) :
  Forall (fun c => iswspace c = true) ws ->
  iswspace (hd 0 rest) = false ->
  forall (fuel : nat) (w : World),
    input (lexer w) = ws ++ rest ->
    (length ws < fuel)%nat ->
    skip_loop fuel w =
    Some (tt, {| memory := memory w; lexer := skipped (lexer w) ws |}).
Proof.
  intros Hws Hstop.
  induction Hws as [|c ws Hc Hws IH]; intros fuel w Hin Hfuel;
    (destruct fuel as [|fuel]; [simpl in Hfuel; lia|]).
  - simpl in Hin. rewrite skip_loop_step, lookahead_hd, Hin, Hstop.
    unfold skipped; simpl. now rewrite world_eta.
  - simpl in Hin.
    rewrite skip_loop_step, (lookahead_cons _ _ _ Hin), Hc, skipped_cons.
    destruct (advance_cons (lexer w) true c (ws ++ rest) Hin) as (Hi & _).
    rewrite (IH fuel {| memory := memory w; lexer := advance (lexer w) true |});
      simpl; auto.
    simpl in Hfuel; lia.
Qed.

Lemma skip_loop_out_of_fuel (ws rest : list wint_t) :
  Forall (fun c => iswspace c = true) ws ->
  forall (fuel : nat) (w : World),
    input (lexer w) = ws ++ rest ->
    (fuel <= length ws)%nat ->
    skip_loop fuel w = None.
Proof.
  intros Hws.
  induction Hws as [|c ws Hc Hws IH]; intros fuel w Hin Hfuel;
    (destruct fuel as [|fuel]; [reflexivity|]); simpl in Hfuel; [lia|].
  simpl in Hin. rewrite skip_loop_step, (lookahead_cons _ _ _ Hin), Hc.
  destruct (advance_cons (lexer w) true c (ws ++ rest) Hin) as (Hi & _).
  apply IH; simpl; auto. lia.
Qed.

End SkipLoop.

(** ** Runs of the scanner *)

Lemma skipn_calls (old new : list LexerCall) :
  skipn (length old) (old ++ new) = new.
Proof. induction old; simpl; auto. Qed.

Lemma hd_underscore (rest : list wint_t) :
  hd 0 rest = underscore -> exists rest', rest = underscore :: rest'.
Proof.
  destruct rest as [|c rest']; simpl; intros H.
  - discriminate H.
  - exists rest'; now subst.
Qed.

Lemma matched_spec (l : TSLexer) (ws rest : list wint_t) :
  input l = ws ++ underscore :: rest ->
  input (matched l ws) = rest /\
  position (matched l ws) = (position l + length ws + 1)%nat /\
  result_symbol (matched l ws) = TokenType_symbol LINE_CONTINUATION /\
  calls (matched l ws) = calls l ++ skip_calls ws ++ match_calls /\
  token_start (matched l ws) =
    match ws with
    | [] => token_start l
    | _ :: _ => (position l + length ws)%nat
    end.
Proof.
  intros Hin.
  destruct (skipped_spec ws _ l Hin) as (Hi & Hp & Hr & Hc & Ht).
  destruct (advance_cons _ false _ _ Hi) as (Ji & Jp & Jt & Jr & Jc).
  unfold matched, assign_result_symbol; simpl.
  rewrite Ji, Jp, Jt, Jc, Hp, Hc, Ht, <- !app_assoc.
  repeat split; simpl; auto; lia.
Qed.

Section ScanRuns.

Variable iswspace : wint_t -> bool.

#[local] Abbreviation scan :=
  (tree_sitter_vba_external_scanner_scan iswspace).
#[local] Abbreviation LC := (TokenType_index LINE_CONTINUATION).

Lemma scan_not_valid (fuel : nat) (p : ptr) (vs : valid_symbols_t) (w : World) :
  vs LC = false -> scan fuel p vs w = Some (false, w).
Proof.
  intros H. unfold tree_sitter_vba_external_scanner_scan. rewrite H.
  reflexivity.
Qed.

Lemma scan_valid (ws rest : list wint_t) (fuel : nat) (p : ptr)
    (vs : valid_symbols_t) (w : World) :
  vs LC = true ->
  Forall (fun c => iswspace c = true) ws ->
  iswspace (hd 0 rest) = false ->
  input (lexer w) = ws ++ rest ->
  (length ws < fuel)%nat ->
  scan fuel p vs w =
  Some (if hd 0 rest =? underscore
        then (true, {| memory := memory w; lexer := matched (lexer w) ws |})
        else (false, {| memory := memory w; lexer := skipped (lexer w) ws |})).
Proof.
  intros Hv Hws Hstop Hin Hfuel.
  unfold tree_sitter_vba_external_scanner_scan. rewrite Hv.
  unfold bind at 1.
  rewrite (skip_loop_run iswspace ws rest Hws Hstop fuel w Hin Hfuel).
  unfold bind at 1, get_lookahead at 1. cbn [lexer].
  destruct (skipped_spec ws rest (lexer w) Hin) as (Hi & _).
  rewrite lookahead_hd, Hi.
  destruct (hd 0 rest =? underscore); reflexivity.
Qed.

Lemma scan_valid_out_of_fuel (ws rest : list wint_t) (fuel : nat) (p : ptr)
    (vs : valid_symbols_t) (w : World) :
  vs LC = true ->
  Forall (fun c => iswspace c = true) ws ->
  input (lexer w) = ws ++ rest ->
  (fuel <= length ws)%nat ->
  scan fuel p vs w = None.
Proof.
  intros Hv Hws Hin Hfuel.
  unfold tree_sitter_vba_external_scanner_scan. rewrite Hv.
  unfold bind at 1.
  now rewrite (skip_loop_out_of_fuel iswspace ws rest Hws fuel w Hin Hfuel).
Qed.

(** What the caller observes of a run over whitespace [ws] followed by
    [rest]. *)
Lemma scan_valid_outcome (ws rest : list wint_t) (fuel : nat) (p : ptr)
    (vs : valid_symbols_t) (w : World) :
  vs LC = true ->
  Forall (fun c => iswspace c = true) ws ->
  iswspace (hd 0 rest) = false ->
  input (lexer w) = ws ++ rest ->
  (length ws < fuel)%nat ->
  outcome (scan fuel p vs) w =
  Some (if hd 0 rest =? underscore
        then mkOutcome true (length ws + 1) (skip_calls ws ++ match_calls)
        else mkOutcome false (length ws) (skip_calls ws)).
Proof.
  intros Hv Hws Hstop Hin Hfuel. unfold outcome.
  rewrite (scan_valid ws rest fuel p vs w Hv Hws Hstop Hin Hfuel).
  destruct (hd 0 rest =? underscore) eqn:E; cbn [lexer].
  - apply Z.eqb_eq, hd_underscore in E. destruct E as (rest' & ->).
    destruct (matched_spec _ _ _ Hin) as (_ & Hp & _ & Hc & _).
    rewrite Hp, Hc, skipn_calls. do 2 f_equal. lia.
  - destruct (skipped_spec ws rest _ Hin) as (_ & Hp & _ & Hc & _).
    rewrite Hp, Hc, skipn_calls. do 2 f_equal. lia.
Qed.

End ScanRuns.

Lemma filter_skip_calls (ws : list wint_t) :
  filter is_result_call (skip_calls ws) = [].
Proof. induction ws; simpl; auto. Qed.

Lemma length_skip_calls (ws : list wint_t) :
  length (skip_calls ws) = length ws.
Proof. apply length_map. Qed.

Lemma iswspace_C_nul : iswspace_C 0 = false.
Proof. reflexivity. Qed.

Lemma iswspace_C_underscore : iswspace_C underscore = false.
Proof. reflexivity. Qed.

(** ** The properties of the specification *)

(** C1: on a run of whitespace followed by ['_'], with the line
    continuation valid, [scan] returns true, the cursor stands right behind
    the underscore (the unread text is what followed it, and the position
    has grown by the length of the run plus one), and [result_symbol] is
    [LINE_CONTINUATION].  The loop needs one unit of fuel more than the run
    is long; ['_'] is taken not to be whitespace. *)
Theorem C1_whitespace_underscore_matches
    (iswspace : wint_t -> bool) (ws rest : list wint_t) (fuel : nat)
    (payload : ptr) (valid_symbols : valid_symbols_t) (w : World) :
  iswspace underscore = false ->
  Forall (fun c => iswspace c = true) ws ->
  input (lexer w) = ws ++ underscore :: rest ->
  valid_symbols (TokenType_index LINE_CONTINUATION) = true ->
  (length ws < fuel)%nat ->
  exists w' : World,
    tree_sitter_vba_external_scanner_scan iswspace fuel payload valid_symbols w
      = Some (true, w') /\
    input (lexer w') = rest /\
    position (lexer w') = (position (lexer w) + length ws + 1)%nat /\
    result_symbol (lexer w') = TokenType_symbol LINE_CONTINUATION.
Proof.
  intros Hu Hws Hin Hv Hfuel.
  exists {| memory := memory w; lexer := matched (lexer w) ws |}.
  rewrite (scan_valid iswspace ws (underscore :: rest) fuel payload
             valid_symbols w Hv Hws Hu Hin Hfuel).
  destruct (matched_spec _ _ _ Hin) as (Hi & Hp & Hr & _).
  simpl. auto.
Qed.

(** C2: when [valid_symbols] does not allow the line continuation, [scan]
    returns false with any fuel and leaves the world, hence the cursor, as
    it was. *)
Theorem C2_not_valid_consumes_nothing
    (iswspace : wint_t -> bool) (fuel : nat) (payload : ptr)
    (valid_symbols : valid_symbols_t) (w : World) :
  valid_symbols (TokenType_index LINE_CONTINUATION) = false ->
  tree_sitter_vba_external_scanner_scan iswspace fuel payload valid_symbols w
    = Some (false, w).
Proof. apply scan_not_valid. Qed.

(** C3: on a run of whitespace that is followed by the end of input or by a
    character that is neither whitespace nor ['_'], with the line
    continuation valid, [scan] returns false and the cursor stands behind
    the whole run.  The end of input reads as character 0, taken not to be
    whitespace. *)
Theorem C3_whitespace_is_not_rolled_back
    (iswspace : wint_t -> bool) (ws rest : list wint_t) (fuel : nat)
    (payload : ptr) (valid_symbols : valid_symbols_t) (w : World) :
  iswspace 0 = false ->
  Forall (fun c => iswspace c = true) ws ->
  input (lexer w) = ws ++ rest ->
  (rest = [] \/
   exists c rest', rest = c :: rest' /\ iswspace c = false /\ c <> underscore) ->
  valid_symbols (TokenType_index LINE_CONTINUATION) = true ->
  (length ws < fuel)%nat ->
  exists w' : World,
    tree_sitter_vba_external_scanner_scan iswspace fuel payload valid_symbols w
      = Some (false, w') /\
    input (lexer w') = rest /\
    position (lexer w') = (position (lexer w) + length ws)%nat.
Proof.
  intros H0 Hws Hin Hnext Hv Hfuel.
  assert (Hstop : iswspace (hd 0 rest) = false /\ (hd 0 rest =? underscore) = false).
  { destruct Hnext as [-> | (c & rest' & -> & Hc & Hne)]; simpl.
    - split; [exact H0 | reflexivity].
    - split; [exact Hc | now apply Z.eqb_neq]. }
  destruct Hstop as (Hstop & Hne).
  exists {| memory := memory w; lexer := skipped (lexer w) ws |}.
  rewrite (scan_valid iswspace ws rest fuel payload valid_symbols w
             Hv Hws Hstop Hin Hfuel), Hne.
  destruct (skipped_spec ws rest _ Hin) as (Hi & Hp & _).
  simpl. auto.
Qed.

(** C4: every call returns, and [result_symbol] is assigned exactly when it
    returns true: behind a false the field holds what it held before and no
    assignment is among the calls made; behind a true it holds
    [LINE_CONTINUATION] and the calls made contain that one assignment. *)
Theorem C4_result_symbol_assigned_iff_match
    (iswspace : wint_t -> bool) (fuel : nat) (payload : ptr)
    (valid_symbols : valid_symbols_t) (w : World) :
  iswspace 0 = false ->
  (length (ws_run iswspace (input (lexer w))) < fuel)%nat ->
  exists (b : bool) (w' : World) (new : list LexerCall),
    tree_sitter_vba_external_scanner_scan iswspace fuel payload valid_symbols w
      = Some (b, w') /\
    calls (lexer w') = calls (lexer w) ++ new /\
    (b = false ->
       result_symbol (lexer w') = result_symbol (lexer w) /\
       filter is_result_call new = []) /\
    (b = true ->
       result_symbol (lexer w') = TokenType_symbol LINE_CONTINUATION /\
       filter is_result_call new =
         [CallResult (TokenType_symbol LINE_CONTINUATION)]).
Proof.
  intros H0 Hfuel.
  destruct (run_split iswspace (input (lexer w))) as (Hin & Hws & Hstop & _).
  specialize (Hstop H0).
  set (ws := ws_run iswspace (input (lexer w))) in *.
  set (rest := after_run iswspace (input (lexer w))) in *.
  destruct (valid_symbols (TokenType_index LINE_CONTINUATION)) eqn:Hv.
  - rewrite (scan_valid iswspace ws rest fuel payload valid_symbols w
               Hv Hws Hstop Hin Hfuel).
    destruct (hd 0 rest =? underscore) eqn:E.
    + apply Z.eqb_eq, hd_underscore in E. destruct E as (rest' & E).
      rewrite E in Hin.
      destruct (matched_spec _ _ _ Hin) as (_ & _ & Hr & Hc & _).
      exists true, {| memory := memory w; lexer := matched (lexer w) ws |},
        (skip_calls ws ++ match_calls).
      cbn [lexer]. repeat split; auto; try discriminate.
      rewrite filter_app, filter_skip_calls. reflexivity.
    + destruct (skipped_spec ws rest _ Hin) as (_ & _ & Hr & Hc & _).
      exists false, {| memory := memory w; lexer := skipped (lexer w) ws |},
        (skip_calls ws).
      cbn [lexer]. repeat split; auto; try discriminate.
      apply filter_skip_calls.
  - rewrite (scan_not_valid iswspace fuel payload valid_symbols w Hv).
    exists false, w, []. rewrite app_nil_r.
    repeat split; auto; discriminate.
Qed.

(** C5: with the line continuation valid, the call skips the whole leading
    run of whitespace [ws], the longest prefix of the unread text that
    [iswspace] accepts, passing every character of it with
    [advance(lexer, true)], that is as whitespace; it returns true exactly
    when the character behind the run is ['_'], and then passes that
    underscore with [advance(lexer, false)], that is as token content.  These
    are all the calls it makes on the lexer.  When the token started at the
    cursor, the token a match leaves is the underscore alone. *)
Theorem C5_whitespace_skipped_underscore_kept
    (iswspace : wint_t -> bool) (fuel : nat) (payload : ptr)
    (valid_symbols : valid_symbols_t) (w : World) :
  iswspace 0 = false ->
  valid_symbols (TokenType_index LINE_CONTINUATION) = true ->
  (length (ws_run iswspace (input (lexer w))) < fuel)%nat ->
  exists (b : bool) (w' : World) (ws : list wint_t),
    tree_sitter_vba_external_scanner_scan iswspace fuel payload valid_symbols w
      = Some (b, w') /\
    ws = ws_run iswspace (input (lexer w)) /\
    b = (hd 0 (after_run iswspace (input (lexer w))) =? underscore) /\
    input (lexer w) = ws ++ after_run iswspace (input (lexer w)) /\
    iswspace (hd 0 (after_run iswspace (input (lexer w)))) = false /\
    Forall (fun c => iswspace c = true) ws /\
    input (lexer w) =
      ws ++ (if b then [underscore] else []) ++ input (lexer w') /\
    calls (lexer w') =
      calls (lexer w) ++
      map (fun c => CallAdvance c true) ws ++
      (if b
       then [CallAdvance underscore false;
             CallResult (TokenType_symbol LINE_CONTINUATION)]
       else []) /\
    (b = true ->
     token_start (lexer w) = position (lexer w) ->
     token_start (lexer w') = (position (lexer w) + length ws)%nat /\
     position (lexer w') = S (token_start (lexer w'))).
Proof.
  intros H0 Hv Hfuel.
  destruct (run_split iswspace (input (lexer w))) as (Hin & Hws & Hstop & _).
  specialize (Hstop H0).
  set (ws := ws_run iswspace (input (lexer w))) in *.
  set (rest := after_run iswspace (input (lexer w))) in *.
  rewrite (scan_valid iswspace ws rest fuel payload valid_symbols w
             Hv Hws Hstop Hin Hfuel).
  destruct (hd 0 rest =? underscore) eqn:E.
  - apply Z.eqb_eq, hd_underscore in E. destruct E as (rest' & E).
    assert (Hin' := Hin). rewrite E in Hin'.
    destruct (matched_spec _ _ _ Hin') as (Hi & Hp & _ & Hc & Ht).
    exists true, {| memory := memory w; lexer := matched (lexer w) ws |}, ws.
    cbn [lexer]. rewrite Hi, Hp, Hc, Ht.
    repeat split; auto.
    + destruct ws; simpl; lia.
    + destruct ws; simpl; lia.
  - destruct (skipped_spec ws rest _ Hin) as (Hi & _ & _ & Hc & _).
    exists false, {| memory := memory w; lexer := skipped (lexer w) ws |}, ws.
    cbn [lexer]. rewrite Hi, Hc, app_nil_r.
    repeat split; auto; discriminate.
Qed.

(** C6: [scan] keeps no state.  Two calls that see the same unread text and
    the same [valid_symbols] entry for the line continuation return the same
    value, move the cursor by the same number of characters and make the
    same calls on the lexer, whatever payload pointer, memory contents,
    earlier lexer fields and (sufficient) fuel they run with; neither
    changes the memory, and both leave the same text unread.  Serializing
    and then deserializing leaves the world as it was. *)
Theorem C6_scan_deterministic_and_stateless
    (iswspace : wint_t -> bool) (fuel1 fuel2 : nat) (payload1 payload2 : ptr)
    (valid1 valid2 : valid_symbols_t) (w1 w2 : World) :
  iswspace 0 = false ->
  input (lexer w1) = input (lexer w2) ->
  valid1 (TokenType_index LINE_CONTINUATION) =
    valid2 (TokenType_index LINE_CONTINUATION) ->
  (length (ws_run iswspace (input (lexer w1))) < fuel1)%nat ->
  (length (ws_run iswspace (input (lexer w2))) < fuel2)%nat ->
  (exists (b : bool) (w1' w2' : World),
     tree_sitter_vba_external_scanner_scan iswspace fuel1 payload1 valid1 w1
       = Some (b, w1') /\
     tree_sitter_vba_external_scanner_scan iswspace fuel2 payload2 valid2 w2
       = Some (b, w2') /\
     memory w1' = memory w1 /\ memory w2' = memory w2 /\
     input (lexer w1') = input (lexer w2')) /\
  (exists o : Outcome bool,
     outcome (tree_sitter_vba_external_scanner_scan
                iswspace fuel1 payload1 valid1) w1 = Some o /\
     outcome (tree_sitter_vba_external_scanner_scan
                iswspace fuel2 payload2 valid2) w2 = Some o) /\
  (forall (p buffer : ptr) (w : World),
     (n <- tree_sitter_vba_external_scanner_serialize p buffer ;;
      tree_sitter_vba_external_scanner_deserialize p buffer n) w
     = Some (tt, w)).
Proof.
  intros H0 Hsame Hvalid Hfuel1 Hfuel2.
  destruct (run_split iswspace (input (lexer w1))) as (Hin1 & Hws & Hstop & _).
  specialize (Hstop H0).
  assert (Hin2 := Hin1). rewrite Hsame in Hin2 at 1.
  rewrite <- Hsame in Hfuel2.
  set (ws := ws_run iswspace (input (lexer w1))) in *.
  set (rest := after_run iswspace (input (lexer w1))) in *.
  split; [|split; [|reflexivity]].
  - destruct (valid1 (TokenType_index LINE_CONTINUATION)) eqn:Hv1;
      symmetry in Hvalid.
    + rewrite (scan_valid iswspace ws rest fuel1 payload1 valid1 w1
                 Hv1 Hws Hstop Hin1 Hfuel1),
              (scan_valid iswspace ws rest fuel2 payload2 valid2 w2
                 Hvalid Hws Hstop Hin2 Hfuel2).
      destruct (hd 0 rest =? underscore) eqn:E.
      * apply Z.eqb_eq, hd_underscore in E. destruct E as (rest' & E).
        rewrite E in Hin1, Hin2.
        destruct (matched_spec _ _ _ Hin1) as (Hi1 & _).
        destruct (matched_spec _ _ _ Hin2) as (Hi2 & _).
        do 3 eexists. repeat split; cbn [lexer memory]; congruence.
      * destruct (skipped_spec ws rest _ Hin1) as (Hi1 & _).
        destruct (skipped_spec ws rest _ Hin2) as (Hi2 & _).
        do 3 eexists. repeat split; cbn [lexer memory]; congruence.
    + rewrite (scan_not_valid iswspace fuel1 payload1 valid1 w1 Hv1),
              (scan_not_valid iswspace fuel2 payload2 valid2 w2 Hvalid).
      do 3 eexists. repeat split; auto.
  - destruct (valid1 (TokenType_index LINE_CONTINUATION)) eqn:Hv1;
      symmetry in Hvalid.
    + rewrite (scan_valid_outcome iswspace ws rest fuel1 payload1 valid1 w1
                 Hv1 Hws Hstop Hin1 Hfuel1),
              (scan_valid_outcome iswspace ws rest fuel2 payload2 valid2 w2
                 Hvalid Hws Hstop Hin2 Hfuel2).
      eexists; split; reflexivity.
    + unfold outcome.
      rewrite (scan_not_valid iswspace fuel1 payload1 valid1 w1 Hv1),
              (scan_not_valid iswspace fuel2 payload2 valid2 w2 Hvalid).
      rewrite !Nat.sub_diag, !skipn_all.
      eexists; split; reflexivity.
Qed.

(** C7: [serialize] returns 0, the number of bytes written, and writes
    nothing; on a freshly created state, [serialize] followed at once by
    [deserialize] of what was written changes nothing: whatever the host
    runs afterwards with the payload, a [scan] in particular, runs as it
    would have without the round trip. *)
Theorem C7_serialize_deserialize_identity :
  (forall (p buffer : ptr) (w : World),
     tree_sitter_vba_external_scanner_serialize p buffer w = Some (0, w)) /\
  (forall (A : Type) (k : ptr -> Host A) (buffer : ptr) (w : World),
     (p <- tree_sitter_vba_external_scanner_create ;;
      n <- tree_sitter_vba_external_scanner_serialize p buffer ;;
      tree_sitter_vba_external_scanner_deserialize p buffer n ;;
      k p) w
     = (p <- tree_sitter_vba_external_scanner_create ;; k p) w) /\
  (forall (iswspace : wint_t -> bool) (fuel : nat)
          (valid_symbols : valid_symbols_t) (buffer : ptr) (w : World),
     (p <- tree_sitter_vba_external_scanner_create ;;
      n <- tree_sitter_vba_external_scanner_serialize p buffer ;;
      tree_sitter_vba_external_scanner_deserialize p buffer n ;;
      tree_sitter_vba_external_scanner_scan iswspace fuel p valid_symbols) w
     = (p <- tree_sitter_vba_external_scanner_create ;;
        tree_sitter_vba_external_scanner_scan iswspace fuel p valid_symbols) w).
Proof. repeat split. Qed.

(** C8: [scan] terminates on every text.  With [n] the length of the
    leading whitespace run, which is at most the length of the text, the
    loop condition is evaluated [n + 1] times: any fuel above [n] yields a
    result, in which the cursor has moved at most [n + 1] characters through
    at most [n + 2] calls on the lexer, and with the line continuation valid
    no smaller fuel does.  The end of input reads as character 0, taken not
    to be whitespace. *)
Theorem C8_scan_terminates
    (iswspace : wint_t -> bool) (payload : ptr)
    (valid_symbols : valid_symbols_t) (w : World) :
  iswspace 0 = false ->
  (length (ws_run iswspace (input (lexer w))) <= length (input (lexer w)))%nat /\
  (forall fuel : nat,
     (length (ws_run iswspace (input (lexer w))) < fuel)%nat ->
     exists o : Outcome bool,
       outcome (tree_sitter_vba_external_scanner_scan
                  iswspace fuel payload valid_symbols) w = Some o /\
       (consumed o <= length (ws_run iswspace (input (lexer w))) + 1)%nat /\
       (length (made o) <= length (ws_run iswspace (input (lexer w))) + 2)%nat) /\
  (forall fuel : nat,
     valid_symbols (TokenType_index LINE_CONTINUATION) = true ->
     (fuel <= length (ws_run iswspace (input (lexer w))))%nat ->
     tree_sitter_vba_external_scanner_scan iswspace fuel payload valid_symbols w
       = None).
Proof.
  intros H0.
  destruct (run_split iswspace (input (lexer w))) as (Hin & Hws & Hstop & Hlen).
  specialize (Hstop H0).
  set (ws := ws_run iswspace (input (lexer w))) in *.
  set (rest := after_run iswspace (input (lexer w))) in *.
  split; [exact Hlen|split].
  - intros fuel Hfuel.
    destruct (valid_symbols (TokenType_index LINE_CONTINUATION)) eqn:Hv.
    + rewrite (scan_valid_outcome iswspace ws rest fuel payload valid_symbols w
                 Hv Hws Hstop Hin Hfuel).
      eexists; split; [reflexivity|].
      destruct (hd 0 rest =? underscore); simpl;
        rewrite ?length_app, length_skip_calls; simpl; lia.
    + unfold outcome.
      rewrite (scan_not_valid iswspace fuel payload valid_symbols w Hv).
      eexists; split; [reflexivity|].
      simpl. rewrite Nat.sub_diag, skipn_all. simpl; lia.
  - intros fuel Hv Hfuel.
    exact (scan_valid_out_of_fuel iswspace ws rest fuel payload valid_symbols w
             Hv Hws Hin Hfuel).
Qed.

(** C9: what follows the matched underscore plays no part.  On two texts
    that agree up to and including the underscore behind a whitespace run,
    [scan] returns true on both, leaves everything behind the underscore
    unread, and the caller observes the same on both: the cursor moved past
    the run and the underscore, through the same calls. *)
Theorem C9_text_after_underscore_is_not_inspected
    (iswspace : wint_t -> bool) (ws rest1 rest2 : list wint_t) (fuel : nat)
    (payload : ptr) (valid_symbols : valid_symbols_t) (w1 w2 : World) :
  iswspace underscore = false ->
  Forall (fun c => iswspace c = true) ws ->
  valid_symbols (TokenType_index LINE_CONTINUATION) = true ->
  input (lexer w1) = ws ++ underscore :: rest1 ->
  input (lexer w2) = ws ++ underscore :: rest2 ->
  (length ws < fuel)%nat ->
  (exists w1' w2' : World,
     tree_sitter_vba_external_scanner_scan iswspace fuel payload valid_symbols w1
       = Some (true, w1') /\
     tree_sitter_vba_external_scanner_scan iswspace fuel payload valid_symbols w2
       = Some (true, w2') /\
     input (lexer w1') = rest1 /\
     input (lexer w2') = rest2) /\
  outcome (tree_sitter_vba_external_scanner_scan
             iswspace fuel payload valid_symbols) w1
    = Some (mkOutcome true (length ws + 1) (skip_calls ws ++ match_calls)) /\
  outcome (tree_sitter_vba_external_scanner_scan
             iswspace fuel payload valid_symbols) w2
    = Some (mkOutcome true (length ws + 1) (skip_calls ws ++ match_calls)).
Proof.
  intros Hu Hws Hv Hin1 Hin2 Hfuel.
  split; [|split].
  - rewrite (scan_valid iswspace ws (underscore :: rest1) fuel payload
               valid_symbols w1 Hv Hws Hu Hin1 Hfuel),
            (scan_valid iswspace ws (underscore :: rest2) fuel payload
               valid_symbols w2 Hv Hws Hu Hin2 Hfuel).
    destruct (matched_spec _ _ _ Hin1) as (Hi1 & _).
    destruct (matched_spec _ _ _ Hin2) as (Hi2 & _).
    simpl. do 2 eexists. repeat split; cbn [lexer]; assumption.
  - exact (scan_valid_outcome iswspace ws (underscore :: rest1) fuel payload
             valid_symbols w1 Hv Hws Hu Hin1 Hfuel).
  - exact (scan_valid_outcome iswspace ws (underscore :: rest2) fuel payload
             valid_symbols w2 Hv Hws Hu Hin2 Hfuel).
Qed.

(** C10: [deserialize] does nothing, whatever pointer and length it is
    given and whatever bytes the memory holds: it returns leaving the world
    as it was, so any two calls of it are interchangeable before whatever
    runs next, and a [scan] behind it runs as if it had not been called. *)
Theorem C10_deserialize_ignores_its_arguments :
  (forall (p b : ptr) (n : Z) (w : World),
     tree_sitter_vba_external_scanner_deserialize p b n w = Some (tt, w)) /\
  (forall (A : Type) (k : Host A) (p1 b1 p2 b2 : ptr) (n1 n2 : Z) (w : World),
     (tree_sitter_vba_external_scanner_deserialize p1 b1 n1 ;; k) w
     = (tree_sitter_vba_external_scanner_deserialize p2 b2 n2 ;; k) w) /\
  (forall (iswspace : wint_t -> bool) (fuel : nat) (payload : ptr)
          (valid_symbols : valid_symbols_t) (p b : ptr) (n : Z) (w : World),
     (tree_sitter_vba_external_scanner_deserialize p b n ;;
      tree_sitter_vba_external_scanner_scan iswspace fuel payload valid_symbols) w
     = tree_sitter_vba_external_scanner_scan
         iswspace fuel payload valid_symbols w).
Proof. repeat split. Qed.

(** ** The scenarios of the specification, under the "C" locale *)

(** Scenario A: the text ["_"]. *)
Example scenario_A :
  outcome (scan_C 1 NULL valid_all) (world_on [95]) =
  Some (mkOutcome true 1 [CallAdvance 95 false; CallResult 0]).
Proof. reflexivity. Qed.

(** Scenario B: three spaces, a new line, a tab and the underscore. *)
Example scenario_B :
  outcome (scan_C 6 NULL valid_all) (world_on [32; 32; 32; 10; 9; 95]) =
  Some (mkOutcome true 6
          [CallAdvance 32 true; CallAdvance 32 true; CallAdvance 32 true;
           CallAdvance 10 true; CallAdvance 9 true;
           CallAdvance 95 false; CallResult 0]).
Proof. reflexivity. Qed.

(** Scenario C: the text ["x"]. *)
Example scenario_C :
  scan_C 1 NULL valid_all (world_on [120]) = Some (false, world_on [120]).
Proof. reflexivity. Qed.

(** Scenario D: two spaces and ["x"]. *)
Example scenario_D :
  outcome (scan_C 3 NULL valid_all) (world_on [32; 32; 120]) =
  Some (mkOutcome false 2 [CallAdvance 32 true; CallAdvance 32 true]).
Proof. reflexivity. Qed.

(** Scenario E: the line continuation is not valid. *)
Example scenario_E :
  scan_C 0 NULL valid_none (world_on [32; 95]) =
  Some (false, world_on [32; 95]).
Proof. reflexivity. Qed.

(** ** Instances of the properties *)

Lemma C1_whitespace_underscore_matches_witness :
  exists w' : World,
    scan_C 6 NULL valid_all (world_on [32; 32; 32; 10; 9; 95])
      = Some (true, w') /\
    input (lexer w') = [] /\
    position (lexer w') = 6%nat /\
    result_symbol (lexer w') = TokenType_symbol LINE_CONTINUATION.
Proof.
  apply (C1_whitespace_underscore_matches iswspace_C [32; 32; 32; 10; 9] []
           6 NULL valid_all (world_on [32; 32; 32; 10; 9; 95])).
  - reflexivity.
  - repeat constructor.
  - reflexivity.
  - reflexivity.
  - simpl; lia.
Defined.

Lemma C2_not_valid_consumes_nothing_witness :
  scan_C 0 NULL valid_none (world_midway [32; 95; 120])
    = Some (false, world_midway [32; 95; 120]).
Proof.
  apply (C2_not_valid_consumes_nothing iswspace_C 0 NULL valid_none
           (world_midway [32; 95; 120])).
  reflexivity.
Defined.

Lemma C3_whitespace_is_not_rolled_back_witness :
  exists w' : World,
    scan_C 3 NULL valid_all (world_on [32; 32; 120]) = Some (false, w') /\
    input (lexer w') = [120] /\
    position (lexer w') = 2%nat.
Proof.
  apply (C3_whitespace_is_not_rolled_back iswspace_C [32; 32] [120]
           3 NULL valid_all (world_on [32; 32; 120])).
  - reflexivity.
  - repeat constructor.
  - reflexivity.
  - right. exists 120, []. repeat split. discriminate.
  - reflexivity.
  - simpl; lia.
Defined.

Lemma C4_result_symbol_assigned_iff_match_witness :
  exists (b : bool) (w' : World) (new : list LexerCall),
    scan_C 2 NULL valid_all (world_midway [9; 95; 120]) = Some (b, w') /\
    calls (lexer w') = [CallAdvance 120 false] ++ new /\
    (b = false ->
       result_symbol (lexer w') = 3 /\
       filter is_result_call new = []) /\
    (b = true ->
       result_symbol (lexer w') = TokenType_symbol LINE_CONTINUATION /\
       filter is_result_call new =
         [CallResult (TokenType_symbol LINE_CONTINUATION)]).
Proof.
  apply (C4_result_symbol_assigned_iff_match iswspace_C 2 NULL valid_all
           (world_midway [9; 95; 120])).
  - reflexivity.
  - simpl; lia.
Defined.

Lemma C5_whitespace_skipped_underscore_kept_witness :
  exists (b : bool) (w' : World) (ws : list wint_t),
    scan_C 3 NULL valid_all (world_midway [32; 10; 95; 120]) = Some (b, w') /\
    ws = [32; 10] /\
    b = true /\
    [32; 10; 95; 120] = ws ++ [95; 120] /\
    iswspace_C 95 = false /\
    Forall (fun c => iswspace_C c = true) ws /\
    [32; 10; 95; 120] =
      ws ++ (if b then [underscore] else []) ++ input (lexer w') /\
    calls (lexer w') =
      [CallAdvance 120 false] ++
      map (fun c => CallAdvance c true) ws ++
      (if b
       then [CallAdvance underscore false;
             CallResult (TokenType_symbol LINE_CONTINUATION)]
       else []) /\
    (b = true ->
     7%nat = 7%nat ->
     token_start (lexer w') = (7 + length ws)%nat /\
     position (lexer w') = S (token_start (lexer w'))).
Proof.
  apply (C5_whitespace_skipped_underscore_kept iswspace_C 3 NULL valid_all
           (world_midway [32; 10; 95; 120])).
  - reflexivity.
  - reflexivity.
  - simpl; lia.
Defined.

Lemma C6_scan_deterministic_and_stateless_witness :
  (exists (b : bool) (w1' w2' : World),
     scan_C 2 NULL valid_all (world_on [32; 95]) = Some (b, w1') /\
     scan_C 9 4096 (fun i => Nat.eqb i 0) (world_midway [32; 95])
       = Some (b, w2') /\
     memory w1' = [] /\ memory w2' = [(4096, Byte.x2a)] /\
     input (lexer w1') = input (lexer w2')) /\
  (exists o : Outcome bool,
     outcome (scan_C 2 NULL valid_all) (world_on [32; 95]) = Some o /\
     outcome (scan_C 9 4096 (fun i => Nat.eqb i 0)) (world_midway [32; 95])
       = Some o) /\
  (forall (p buffer : ptr) (w : World),
     (n <- tree_sitter_vba_external_scanner_serialize p buffer ;;
      tree_sitter_vba_external_scanner_deserialize p buffer n) w
     = Some (tt, w)).
Proof.
  apply (C6_scan_deterministic_and_stateless iswspace_C 2 9 NULL 4096
           valid_all (fun i => Nat.eqb i 0)
           (world_on [32; 95]) (world_midway [32; 95])).
  - reflexivity.
  - reflexivity.
  - reflexivity.
  - simpl; lia.
  - simpl; lia.
Defined.

Lemma C8_scan_terminates_witness :
  (2 <= 3)%nat /\
  (forall fuel : nat,
     (2 < fuel)%nat ->
     exists o : Outcome bool,
       outcome (scan_C fuel NULL valid_all) (world_on [32; 9; 120]) = Some o /\
       (consumed o <= 2 + 1)%nat /\
       (length (made o) <= 2 + 2)%nat) /\
  (forall fuel : nat,
     valid_all (TokenType_index LINE_CONTINUATION) = true ->
     (fuel <= 2)%nat ->
     scan_C fuel NULL valid_all (world_on [32; 9; 120]) = None).
Proof.
  apply (C8_scan_terminates iswspace_C NULL valid_all (world_on [32; 9; 120])).
  reflexivity.
Defined.

Lemma C9_text_after_underscore_is_not_inspected_witness :
  (exists w1' w2' : World,
     scan_C 2 NULL valid_all (world_on [9; 95]) = Some (true, w1') /\
     scan_C 2 NULL valid_all (world_on [9; 95; 95; 32; 120])
       = Some (true, w2') /\
     input (lexer w1') = [] /\
     input (lexer w2') = [95; 32; 120]) /\
  outcome (scan_C 2 NULL valid_all) (world_on [9; 95])
    = Some (mkOutcome true 2 (skip_calls [9] ++ match_calls)) /\
  outcome (scan_C 2 NULL valid_all) (world_on [9; 95; 95; 32; 120])
    = Some (mkOutcome true 2 (skip_calls [9] ++ match_calls)).
Proof.
  apply (C9_text_after_underscore_is_not_inspected iswspace_C [9] []
           [95; 32; 120] 2 NULL valid_all
           (world_on [9; 95]) (world_on [9; 95; 95; 32; 120])).
  - reflexivity.
  - repeat constructor.
  - reflexivity.
  - reflexivity.
  - reflexivity.
  - simpl; lia.
Defined.

(** * Further properties of the scanner *)

(** ** The whitespace loop under any classification *)

Lemma advance_at_end (l : TSLexer) (skip : bool) :
  input l = [] -> advance l skip = l.
Proof. unfold advance; intros ->; reflexivity. Qed.

Lemma ws_run_app (p : wint_t -> bool) (ws rest : list wint_t) :
  Forall (fun c => p c = true) ws ->
  p (hd 0 rest) = false ->
  ws_run p (ws ++ rest) = ws /\ after_run p (ws ++ rest) = rest.
Proof.
  intros Hws Hstop. induction Hws as [|c ws Hc Hws (IH1 & IH2)]; simpl.
  - destruct rest as [|c rest]; simpl in *; [auto|]. rewrite Hstop; auto.
  - rewrite Hc, IH1, IH2; auto.
Qed.

Section LoopInvariant.

Variable iswspace : wint_t -> bool.

#[local] Abbreviation skip_loop' fuel :=
  (while_ fuel (bind get_lookahead (fun c => ret (iswspace c)))
     (do_advance true)).

(** Whatever [iswspace] accepts: when the loop returns, it has skipped a run
    of accepted characters and stands before one that is not accepted. *)
Lemma skip_loop_inv (fuel : nat) :
  forall w w' : World,
    skip_loop' fuel w = Some (tt, w') ->
    memory w' = memory w /\
    iswspace (lookahead (lexer w')) = false /\
    exists ws : list wint_t,
      Forall (fun c => iswspace c = true) ws /\
      input (lexer w) = ws ++ input (lexer w') /\
      lexer w' = skipped (lexer w) ws.
Proof.
  induction fuel as [|fuel IH]; intros w w' Hrun; [discriminate Hrun|].
  rewrite skip_loop_step in Hrun.
  destruct (iswspace (lookahead (lexer w))) eqn:Hc.
  - destruct (IH _ _ Hrun) as (Hm & Hstop & ws & Hws & Hin & Hl).
    cbn [memory lexer] in *.
    split; [exact Hm|split; [exact Hstop|]].
    destruct (input (lexer w)) as [|c rest] eqn:E.
    + rewrite (advance_at_end _ _ E) in Hin, Hl. rewrite E in Hin.
      exists ws. auto.
    + destruct (advance_cons _ true _ _ E) as (Hi & _).
      rewrite Hi in Hin. rewrite (lookahead_cons _ _ _ E) in Hc.
      exists (c :: ws). rewrite skipped_cons. simpl.
      repeat split; auto. now rewrite Hin.
  - injection Hrun as <-.
    split; [reflexivity|split; [exact Hc|]].
    exists []. repeat split; auto.
Qed.

(** The two ways in which a call with the line continuation valid returns. *)
Lemma scan_returns_inv (fuel : nat) (p : ptr) (vs : valid_symbols_t)
    (w w' : World) (b : bool) :
  vs (TokenType_index LINE_CONTINUATION) = true ->
  tree_sitter_vba_external_scanner_scan iswspace fuel p vs w = Some (b, w') ->
  exists w1 : World,
    skip_loop' fuel w = Some (tt, w1) /\
    ((lookahead (lexer w1) = underscore /\ b = true /\
      w' = {| memory := memory w1;
              lexer := assign_result_symbol (advance (lexer w1) false)
                         (TokenType_symbol LINE_CONTINUATION) |}) \/
     (lookahead (lexer w1) <> underscore /\ b = false /\ w' = w1)).
Proof.
  intros Hv. unfold tree_sitter_vba_external_scanner_scan. rewrite Hv.
  unfold bind at 1.
  destruct (skip_loop' fuel w) as [[[] w1]|] eqn:Hloop; [|discriminate].
  unfold bind at 1, get_lookahead at 1.
  intros Hrun. exists w1. split; [reflexivity|].
  destruct (Z.eqb_spec (lookahead (lexer w1)) underscore) as [E|E].
  - left. injection Hrun as <- <-. auto.
  - right. injection Hrun as <- <-. auto.
Qed.

End LoopInvariant.

(** ** What callers can rely on *)

(** X1: [scan] returns true exactly when the line continuation is valid
    and the unread text is a run of whitespace followed by ['_']. *)
Theorem X1_match_iff_whitespace_then_underscore
    (iswspace : wint_t -> bool) (fuel : nat) (payload : ptr)
    (valid_symbols : valid_symbols_t) (w : World) :
  iswspace 0 = false ->
  iswspace underscore = false ->
  (length (ws_run iswspace (input (lexer w))) < fuel)%nat ->
  exists (b : bool) (w' : World),
    tree_sitter_vba_external_scanner_scan iswspace fuel payload valid_symbols w
      = Some (b, w') /\
    (b = true <->
     valid_symbols (TokenType_index LINE_CONTINUATION) = true /\
     exists ws rest : list wint_t,
       Forall (fun c => iswspace c = true) ws /\
       input (lexer w) = ws ++ underscore :: rest).
Proof.
  intros H0 Hu Hfuel.
  destruct (run_split iswspace (input (lexer w))) as (Hin & Hws & Hstop & _).
  specialize (Hstop H0).
  destruct (valid_symbols (TokenType_index LINE_CONTINUATION)) eqn:Hv.
  - rewrite (scan_valid iswspace _ _ fuel payload valid_symbols w
               Hv Hws Hstop Hin Hfuel).
    destruct (hd 0 (after_run iswspace (input (lexer w))) =? underscore) eqn:E.
    + do 2 eexists; split; [reflexivity|].
      split; [intros _|reflexivity]. split; [reflexivity|].
      apply Z.eqb_eq, hd_underscore in E. destruct E as (rest' & E).
      rewrite E in Hin. eauto.
    + do 2 eexists; split; [reflexivity|].
      split; [discriminate|]. intros (_ & ws & rest & Hws' & Hin').
      destruct (ws_run_app iswspace ws (underscore :: rest) Hws' Hu)
        as (_ & Hafter).
      rewrite <- Hin' in Hafter. rewrite Hafter in E. discriminate E.
  - rewrite (scan_not_valid iswspace fuel payload valid_symbols w Hv).
    do 2 eexists; split; [reflexivity|].
    split; [discriminate|]. intros (Hfalse & _). discriminate Hfalse.
Qed.

(** X2: a call that returned false can be repeated without effect: on the
    world it left, [scan] returns false again, with any payload and any
    fuel above zero, and leaves that world as it is.  The whitespace a
    failed call skipped is skipped once only. *)
Theorem X2_failed_scan_is_stable
    (iswspace : wint_t -> bool) (fuel : nat) (payload : ptr)
    (valid_symbols : valid_symbols_t) (w : World) :
  iswspace 0 = false ->
  (length (ws_run iswspace (input (lexer w))) < fuel)%nat ->
  exists (b : bool) (w' : World),
    tree_sitter_vba_external_scanner_scan iswspace fuel payload valid_symbols w
      = Some (b, w') /\
    (b = false ->
     forall (fuel' : nat) (payload' : ptr),
       (0 < fuel')%nat ->
       tree_sitter_vba_external_scanner_scan
         iswspace fuel' payload' valid_symbols w' = Some (false, w')).
Proof.
  intros H0 Hfuel.
  destruct (run_split iswspace (input (lexer w))) as (Hin & Hws & Hstop & _).
  specialize (Hstop H0).
  set (ws := ws_run iswspace (input (lexer w))) in *.
  set (rest := after_run iswspace (input (lexer w))) in *.
  destruct (valid_symbols (TokenType_index LINE_CONTINUATION)) eqn:Hv.
  - rewrite (scan_valid iswspace ws rest fuel payload valid_symbols w
               Hv Hws Hstop Hin Hfuel).
    destruct (hd 0 rest =? underscore) eqn:E.
    + do 2 eexists; split; [reflexivity|discriminate].
    + do 2 eexists; split; [reflexivity|].
      intros _ fuel' payload' Hfuel'.
      destruct (skipped_spec ws rest _ Hin) as (Hi & _).
      rewrite (scan_valid iswspace [] rest fuel' payload' valid_symbols
                 {| memory := memory w; lexer := skipped (lexer w) ws |}
                 Hv (Forall_nil _) Hstop Hi Hfuel'), E.
      reflexivity.
  - rewrite (scan_not_valid iswspace fuel payload valid_symbols w Hv).
    do 2 eexists; split; [reflexivity|].
    intros _ fuel' payload' _. now apply scan_not_valid.
Qed.

(** X3: two line continuations in a row are recognised by two calls in a
    row: on whitespace, ['_'], whitespace, ['_'], both calls return true,
    the second starting where the first stopped; together they consume both
    runs and both underscores and make the calls of two matches. *)
Theorem X3_two_scans_take_two_continuations
    (iswspace : wint_t -> bool) (ws1 ws2 rest : list wint_t) (fuel : nat)
    (payload : ptr) (valid_symbols : valid_symbols_t) (w : World) :
  iswspace underscore = false ->
  Forall (fun c => iswspace c = true) ws1 ->
  Forall (fun c => iswspace c = true) ws2 ->
  valid_symbols (TokenType_index LINE_CONTINUATION) = true ->
  input (lexer w) = ws1 ++ underscore :: ws2 ++ underscore :: rest ->
  (length ws1 < fuel)%nat ->
  (length ws2 < fuel)%nat ->
  exists w' : World,
    (b1 <- tree_sitter_vba_external_scanner_scan
             iswspace fuel payload valid_symbols ;;
     b2 <- tree_sitter_vba_external_scanner_scan
             iswspace fuel payload valid_symbols ;;
     ret (b1, b2)) w = Some ((true, true), w') /\
    input (lexer w') = rest /\
    position (lexer w') = (position (lexer w) + length ws1 + length ws2 + 2)%nat /\
    calls (lexer w') =
      calls (lexer w) ++
      skip_calls ws1 ++ match_calls ++ skip_calls ws2 ++ match_calls.
Proof.
  intros Hu Hws1 Hws2 Hv Hin Hfuel1 Hfuel2.
  destruct (matched_spec _ _ _ Hin) as (Hi1 & Hp1 & _ & Hc1 & _).
  set (w1 := {| memory := memory w; lexer := matched (lexer w) ws1 |}).
  destruct (matched_spec (lexer w1) ws2 rest Hi1) as (Hi2 & Hp2 & _ & Hc2 & _).
  exists {| memory := memory w1; lexer := matched (lexer w1) ws2 |}.
  unfold bind at 1.
  rewrite (scan_valid iswspace ws1 (underscore :: ws2 ++ underscore :: rest)
             fuel payload valid_symbols w Hv Hws1 Hu Hin Hfuel1).
  cbn [hd]. rewrite Z.eqb_refl. fold w1.
  unfold bind at 1.
  rewrite (scan_valid iswspace ws2 (underscore :: rest)
             fuel payload valid_symbols w1 Hv Hws2 Hu Hi1 Hfuel2).
  cbn [hd]. rewrite Z.eqb_refl.
  split; [reflexivity|]. subst w1. cbn [lexer] in *.
  rewrite Hi2, Hp2, Hc2, Hp1, Hc1, <- !app_assoc.
  repeat split; lia.
Qed.

(** X4: when the character at the cursor is neither whitespace nor ['_'],
    the end of input included, [scan] returns false without touching the
    lexer at all: no call is made on it and every field keeps its value,
    whether or not the line continuation is valid. *)
Theorem X4_no_whitespace_no_underscore_leaves_lexer_untouched
    (iswspace : wint_t -> bool) (fuel : nat) (payload : ptr)
    (valid_symbols : valid_symbols_t) (w : World) :
  iswspace (lookahead (lexer w)) = false ->
  lookahead (lexer w) <> underscore ->
  (0 < fuel)%nat ->
  tree_sitter_vba_external_scanner_scan iswspace fuel payload valid_symbols w
    = Some (false, w).
Proof.
  intros Hstop Hne Hfuel. rewrite lookahead_hd in Hstop, Hne.
  destruct (valid_symbols (TokenType_index LINE_CONTINUATION)) eqn:Hv.
  - rewrite (scan_valid iswspace [] (input (lexer w)) fuel payload
               valid_symbols w Hv (Forall_nil _) Hstop eq_refl Hfuel).
    apply Z.eqb_neq in Hne. rewrite Hne.
    unfold skipped; simpl. now rewrite world_eta.
  - now apply scan_not_valid.
Qed.

(** X5: under any classification of whitespace, whenever [scan] returns it
    has left the memory alone and consumed exactly a run of characters the
    classification accepts, followed by one ['_'] if it returns true; the
    position has grown by the number of characters consumed.  Behind a
    false, [result_symbol] is as before and, when the line continuation was
    valid, the cursor stands before a character that is neither whitespace
    nor ['_']. *)
Theorem X5_scan_consumes_whitespace_and_one_underscore_only
    (iswspace : wint_t -> bool) (fuel : nat) (payload : ptr)
    (valid_symbols : valid_symbols_t) (w w' : World) (b : bool) :
  tree_sitter_vba_external_scanner_scan iswspace fuel payload valid_symbols w
    = Some (b, w') ->
  memory w' = memory w /\
  (exists ws : list wint_t,
     Forall (fun c => iswspace c = true) ws /\
     input (lexer w) =
       ws ++ (if b then [underscore] else []) ++ input (lexer w') /\
     position (lexer w') =
       (position (lexer w) + length ws + (if b then 1 else 0))%nat) /\
  (b = false ->
   result_symbol (lexer w') = result_symbol (lexer w) /\
   (valid_symbols (TokenType_index LINE_CONTINUATION) = true ->
    iswspace (lookahead (lexer w')) = false /\
    lookahead (lexer w') <> underscore)).
Proof.
  intros Hrun.
  destruct (valid_symbols (TokenType_index LINE_CONTINUATION)) eqn:Hv.
  - destruct (scan_returns_inv iswspace fuel payload valid_symbols w w' b
                Hv Hrun) as (w1 & Hloop & Hcase).
    destruct (skip_loop_inv iswspace fuel w w1 Hloop)
      as (Hm & Hstop & ws & Hws & Hin & Hl).
    destruct (skipped_spec ws _ _ Hin) as (_ & Hp & Hr & _).
    rewrite <- Hl in Hp, Hr.
    destruct Hcase as [(Hlook & -> & ->) | (Hlook & -> & ->)].
    + rewrite lookahead_hd in Hlook.
      destruct (hd_underscore _ Hlook) as (rest' & E).
      destruct (advance_cons _ false _ _ E) as (Hi & Hq & _).
      cbn [memory lexer assign_result_symbol input position].
      split; [exact Hm|split; [|discriminate]].
      exists ws. rewrite Hi, Hq, Hp, Hin, E.
      repeat split; auto. lia.
    + split; [exact Hm|split].
      * exists ws. rewrite Hp. repeat split; auto.
      * intros _. split; [exact Hr|]. intros _. auto.
  - rewrite (scan_not_valid iswspace fuel payload valid_symbols w Hv) in Hrun.
    injection Hrun as <- <-.
    split; [reflexivity|split].
    + exists []. repeat split; auto. simpl. lia.
    + intros _. split; [reflexivity|discriminate].
Qed.

Lemma lifecycle_call_noop (c : Lifecycle) (w : World) :
  lifecycle_call c w = Some (tt, w).
Proof. destruct c; reflexivity. Qed.

(** X6: the lifecycle callbacks leave no trace.  A session made of
    lifecycle calls alone, in any number and order and with any arguments,
    ends in the world it started in; and in any session, the scans return
    what they return, and leave the world they leave, when all lifecycle
    calls are taken out. *)
Theorem X6_lifecycle_calls_leave_no_trace (iswspace : wint_t -> bool) :
  (forall (ls : list Lifecycle) (w : World),
     session iswspace (map Life ls) w = Some ([], w)) /\
  (forall (cs : list HostCall) (w : World),
     session iswspace cs w = session iswspace (filter is_scan cs) w).
Proof.
  split.
  - induction ls as [|c ls IH]; intros w; [reflexivity|].
    simpl. unfold bind at 1. rewrite lifecycle_call_noop. apply IH.
  - induction cs as [|[c|fuel payload vs] cs IH]; intros w; [reflexivity| |].
    + simpl. unfold bind at 1. rewrite lifecycle_call_noop. apply IH.
    + simpl. unfold bind at 1 3.
      destruct (tree_sitter_vba_external_scanner_scan iswspace fuel payload vs w)
        as [[b w1]|]; [|reflexivity].
      unfold bind. now rewrite IH.
Qed.

(** ** Instances of the further properties *)

Lemma X1_match_iff_whitespace_then_underscore_witness :
  exists (b : bool) (w' : World),
    scan_C 3 NULL valid_all (world_midway [32; 9; 95; 120]) = Some (b, w') /\
    (b = true <->
     valid_all (TokenType_index LINE_CONTINUATION) = true /\
     exists ws rest : list wint_t,
       Forall (fun c => iswspace_C c = true) ws /\
       [32; 9; 95; 120] = ws ++ underscore :: rest).
Proof.
  apply (X1_match_iff_whitespace_then_underscore iswspace_C 3 NULL valid_all
           (world_midway [32; 9; 95; 120])).
  - reflexivity.
  - reflexivity.
  - simpl; lia.
Defined.

Lemma X2_failed_scan_is_stable_witness :
  exists (b : bool) (w' : World),
    scan_C 3 NULL valid_all (world_on [32; 10; 120]) = Some (b, w') /\
    (b = false ->
     forall (fuel' : nat) (payload' : ptr),
       (0 < fuel')%nat ->
       scan_C fuel' payload' valid_all w' = Some (false, w')).
Proof.
  apply (X2_failed_scan_is_stable iswspace_C 3 NULL valid_all
           (world_on [32; 10; 120])).
  - reflexivity.
  - simpl; lia.
Defined.

Lemma X3_two_scans_take_two_continuations_witness :
  exists w' : World,
    (b1 <- scan_C 3 NULL valid_all ;;
     b2 <- scan_C 3 NULL valid_all ;;
     ret (b1, b2)) (world_on [32; 95; 10; 9; 95; 120])
      = Some ((true, true), w') /\
    input (lexer w') = [120] /\
    position (lexer w') = 5%nat /\
    calls (lexer w') =
      [] ++ skip_calls [32] ++ match_calls ++ skip_calls [10; 9] ++ match_calls.
Proof.
  apply (X3_two_scans_take_two_continuations iswspace_C [32] [10; 9] [120]
           3 NULL valid_all (world_on [32; 95; 10; 9; 95; 120])).
  - reflexivity.
  - repeat constructor.
  - repeat constructor.
  - reflexivity.
  - reflexivity.
  - simpl; lia.
  - simpl; lia.
Defined.

Lemma X4_no_whitespace_no_underscore_leaves_lexer_untouched_witness :
  scan_C 1 NULL valid_all (world_midway []) = Some (false, world_midway []).
Proof.
  apply (X4_no_whitespace_no_underscore_leaves_lexer_untouched iswspace_C
           1 NULL valid_all (world_midway [])).
  - reflexivity.
  - discriminate.
  - lia.
Defined.

Lemma X5_scan_consumes_whitespace_and_one_underscore_only_witness :
  memory (mkWorld [] (mkLexer [120] 2 2 0
            [CallAdvance 32 true; CallAdvance 9 true]))
    = memory (world_on [32; 9; 120]) /\
  (exists ws : list wint_t,
     Forall (fun c => iswspace_C c = true) ws /\
     [32; 9; 120] = ws ++ [] ++ [120] /\
     2%nat = (0 + length ws + 0)%nat) /\
  (false = false ->
   result_symbol (lexer (mkWorld [] (mkLexer [120] 2 2 0
                    [CallAdvance 32 true; CallAdvance 9 true])))
     = result_symbol (lexer (world_on [32; 9; 120])) /\
   (valid_all (TokenType_index LINE_CONTINUATION) = true ->
    iswspace_C 120 = false /\ 120 <> underscore)).
Proof.
  apply (X5_scan_consumes_whitespace_and_one_underscore_only iswspace_C
           3 NULL valid_all (world_on [32; 9; 120])
           (mkWorld [] (mkLexer [120] 2 2 0
              [CallAdvance 32 true; CallAdvance 9 true]))
           false).
  reflexivity.
Defined.
